(** * Example content scripts for two vector stores

  The repository holds two documentation scripts,
  [example_content_qdrant.py] and [example_content_weaviate.py].  Each is a
  straight-line sequence of calls on a store client.  This development
  embeds

  - the Python literals the scripts pass around ([value], dict literals as
    finite maps),
  - a script as the sequence of client calls it issues, where a later call may
    use what an earlier call returned ([script]),
  - the run of a script against a client that may raise ([exec]),
  - a model of each store client ([Qdrant.client], [Weaviate.client]),

  and then states the properties of the two scripts. *)

From Stdlib Require Import ZArith.
From stdpp Require Import base strings list gmap pretty.

(** ** Python literals *)

(** The values that occur in the payload and schema literals of the two
  scripts: strings, integers and lists of strings. *)
Inductive value : Type :=
| VText (s : string)
| VNumber (n : Z)
| VTexts (l : list string).

#[global] Instance value_eq_dec : EqDecision value.
Proof. solve_decision. Defined.

(** A dict literal with string keys. *)
Abbreviation dict := (gmap string value).

(** [{k1: v1, ..., kn: vn}]: later bindings of a key win, as in Python. *)
Definition dict_of (kvs : list (string * value)) : dict :=
  foldl (λ d kv, <[kv.1 := kv.2]> d) ∅ kvs.

(** Every [*_embedding] name of the Qdrant script is bound to [...], Python's
  [Ellipsis]: the vectors are produced outside the script. *)
Inductive embedding : Type := Ellipsis.

#[global] Instance embedding_eq_dec : EqDecision embedding.
Proof. solve_decision. Defined.

(** ** Scripts and their runs *)

Section Script.
Context {call : Type} {reply : call → Type}.

(** A script either ends, or issues a client call and goes on with the
    value the call returned. *)
Inductive script (A : Type) : Type :=
| Return (a : A)
| Issue (c : call) (k : reply c → script A).
Global Arguments Return {A} a.
Global Arguments Issue {A} c k.

Fixpoint script_bind {A B} (s : script A) (f : A → script B) : script B :=
  match s with
  | Return a => f a
  | Issue c k => Issue c (λ r, script_bind (k r) f)
  end.

Definition issue (c : call) : script (reply c) := Issue c Return.

(** A client answers a call in a state of the store: it returns a reply and
    the next state, or raises ([None]). *)
Definition client (world : Type) : Type :=
  ∀ c : call, world → option (reply c * world).

(** How a run ends.  Neither script has a [try]: an exception raised by a
    call ends the run there. *)
Inductive outcome (world A : Type) : Type :=
| Finished (a : A) (w : world)
| Raised (w : world).
Global Arguments Finished {world A} a w.
Global Arguments Raised {world A} w.

(** What the script observes of one call: the value it returned, or that it
    raised. *)
Inductive event : Type :=
| Returned (c : call) (r : reply c)
| Failed (c : call).

Definition call_of (e : event) : call :=
  match e with Returned c _ => c | Failed c => c end.

(** [exec h s w] runs [s] from [w]; it gives the calls issued, in order, each
    with its result, and how the run ended. *)
Fixpoint exec {world A} (h : client world) (s : script A) (w : world)
  : list event * outcome world A :=
  match s with
  | Return a => ([], Finished a w)
  | Issue c k =>
      match h c w with
      | None => ([Failed c], Raised w)
      | Some (r, w') => let (log, o) := exec h (k r) w' in (Returned c r :: log, o)
      end
  end.

Definition trace {world A} (h : client world) (s : script A) (w : world)
  : list call := call_of <$> (exec h s w).1.

(** The states of the store along the run: before the first call and after
    each call that returned. *)
Fixpoint states {world A} (h : client world) (s : script A) (w : world)
  : list world :=
  w :: match s with
       | Return _ => []
       | Issue c k =>
           match h c w with
           | None => []
           | Some (r, w') => states h (k r) w'
           end
       end.

Definition completes {world A} (o : outcome world A) : bool :=
  match o with Finished _ _ => true | Raised _ => false end.

Definition final {world A} (o : outcome world A) : world :=
  match o with Finished _ w => w | Raised w => w end.

(** A log of [n] calls, each of which returned. *)
Definition went_through (n : nat) (log : list event) : bool :=
  bool_decide (length log = n)
  && forallb (λ e, match e with Returned _ _ => true | Failed _ => false end) log.

(** The same client, except that the call number [n] raises.  The state
    carries the number of calls answered so far. *)
Definition failing_at {world} (n : nat) (h : client world)
  : client (nat * world) :=
  λ c iw,
    if decide (iw.1 = n) then None
    else match h c iw.2 with
         | None => None
         | Some (r, w') => Some (r, (S iw.1, w'))
         end.

(** [precedes P Q l]: some element satisfying [P] stands before some element
    satisfying [Q]. *)
Fixpoint precedes {X} (P Q : X → bool) (l : list X) : bool :=
  match l with
  | [] => false
  | x :: l' => (P x && existsb Q l') || precedes P Q l'
  end.
End Script.

Global Arguments script {call} reply A.
Global Arguments client {call} reply world.
Global Arguments event {call} reply.

#[global] Instance script_ret {call} {reply : call → Type} : MRet (script reply) :=
  λ A a, Return a.
#[global] Instance script_mbind {call} {reply : call → Type} : MBind (script reply) :=
  λ A B f s, script_bind s f.

(** ** The Qdrant script *)

Module Qdrant.

(** A point as the script writes it: a dict with keys ["id"], ["vector"]
    (absent in the relationship step) and ["payload"]. *)
Record point : Type := Point {
  id : string;
  vector : option embedding;
  payload : dict;
}.

#[global] Instance point_eq_dec : EqDecision point.
Proof. solve_decision. Defined.

(** The only client method the script calls. *)
Inductive call : Type :=
| Upsert (collection_name : string) (points : list point).

#[global] Instance call_eq_dec : EqDecision call.
Proof. solve_decision. Defined.

(** The script ignores what [upsert] returns. *)
Definition reply (c : call) : Type := unit.

(** Model of the store: collection name, then point id, to the stored
    point.  An upsert inserts each point, or replaces the point stored under
    the same id. *)
Abbreviation collection := (gmap string point).
Abbreviation store := (gmap string (gmap string point)).

Definition upsert_points (pts : list point) (coll : collection) : collection :=
  foldl (λ m p, <[id p := p]> m) coll pts.

Definition upsert (c : call) (st : store) : store :=
  match c with
  | Upsert name pts => <[name := upsert_points pts (default ∅ (st !! name))]> st
  end.

Definition client : client reply store := λ c st, Some (tt, upsert c st).

(** *** The literals of the script *)

Definition kaiser_embedding : embedding := Ellipsis.
Definition nancy_embedding : embedding := Ellipsis.
Definition collegiate_embedding : embedding := Ellipsis.
Definition princeton_embedding : embedding := Ellipsis.
Definition salida_embedding : embedding := Ellipsis.
Definition wildlife_embedding : embedding := Ellipsis.
Definition resilience_embedding : embedding := Ellipsis.
Definition backpacking_embedding : embedding := Ellipsis.
Definition anniversary_embedding : embedding := Ellipsis.
Definition blacksmithing_embedding : embedding := Ellipsis.

(** Step 2 of the script: the ten entities. *)
Definition entity_points : list point := [
  Point "kaiser" (Some kaiser_embedding)
    (dict_of [("type", VText "Person"); ("name", VText "Kaiser Soze")]);
  Point "nancy" (Some nancy_embedding)
    (dict_of [("type", VText "Person"); ("name", VText "Nancy Soze")]);
  Point "collegiate" (Some collegiate_embedding)
    (dict_of [("type", VText "Place"); ("name", VText "Collegiate Peaks Wilderness");
              ("placeType", VText "Wilderness"); ("state", VText "Colorado")]);
  Point "princeton" (Some princeton_embedding)
    (dict_of [("type", VText "Place"); ("name", VText "Mount Princeton");
              ("placeType", VText "Mountain"); ("elevation", VNumber 14197);
              ("state", VText "Colorado")]);
  Point "salida" (Some salida_embedding)
    (dict_of [("type", VText "Place"); ("name", VText "Salida");
              ("placeType", VText "Town"); ("state", VText "Colorado")]);
  Point "wildlife" (Some wildlife_embedding)
    (dict_of [("type", VText "Project"); ("name", VText "Wildlife Monitoring");
              ("status", VText "Concept");
              ("inspiration", VText "Collegiate Peaks trip")]);
  Point "resilience" (Some resilience_embedding)
    (dict_of [("type", VText "Idea");
              ("name", VText "Community Resilience Through Technology");
              ("topics", VTexts ["mesh networks"; "resource sharing";
                                 "AI disaster response"])]);
  Point "backpacking" (Some backpacking_embedding)
    (dict_of [("type", VText "Experience");
              ("description", VText "Solo backpacking trip");
              ("startDate", VText "2024-06"); ("durationDays", VNumber 8);
              ("distanceMiles", VNumber 85);
              ("inspirationFor", VText "Wildlife Monitoring")]);
  Point "anniversary" (Some anniversary_embedding)
    (dict_of [("type", VText "Event"); ("name", VText "24th Wedding Anniversary");
              ("date", VText "2024-09");
              ("activity", VText "Climbed Mount Princeton")]);
  Point "blacksmithing" (Some blacksmithing_embedding)
    (dict_of [("type", VText "Experience");
              ("description", VText "Learned blacksmithing in Salida");
              ("startDate", VText "2024-12"); ("durationMonths", VNumber 3);
              ("mentor", VText "Old-timer in Salida");
              ("product", VText "Custom door handles")])
].

(** Step 3 of the script: the relationships of Kaiser, as lists of point
    ids in a payload. *)
Definition relationship_points : list point := [
  Point "kaiser" None
    (dict_of [("participatedIn", VTexts ["backpacking"]);
              ("inspired", VTexts ["wildlife"]);
              ("marriedTo", VTexts ["nancy"]);
              ("celebrated", VTexts ["anniversary"]);
              ("learnedSkill", VTexts ["blacksmithing"]);
              ("generatedIdea", VTexts ["resilience"])])
].

Definition store_entities : call := Upsert "entities" entity_points.
Definition add_relationships : call := Upsert "entities" relationship_points.

Definition main : script reply unit :=
  issue store_entities ;;
  issue add_relationships ;;
  mret tt.

(** *** Reading the calls and the store *)

(** The point stored under an id of a collection. *)
Definition stored (st : store) (name i : string) : option point :=
  st !! name ≫= (.!! i).

(** A relationship as the script records it: under the key that names the
    relation, the payload of the source point lists the ids of the targets. *)
Abbreviation reference := (string * string * string)%type.

Definition references_of (p : point) : list reference :=
  '(k, v) ← map_to_list (payload p);
  match v with
  | VTexts l => (λ t, (id p, k, t)) <$> l
  | _ => []
  end.

Definition is_texts (v : value) : bool :=
  match v with VTexts _ => true | _ => false end.

(** An entity point carries its embedding and its type tag. *)
Definition is_entity_point (p : point) : bool :=
  bool_decide (is_Some (vector p)) && bool_decide (is_Some (payload p !! "type")).

(** A relationship point carries no embedding, and its payload holds lists of
    ids only. *)
Definition is_reference_point (p : point) : bool :=
  bool_decide (vector p = None)
  && forallb (λ kv, is_texts kv.2) (map_to_list (payload p)).

Definition points_of (c : call) : list point :=
  match c with Upsert _ pts => pts end.

Definition collection_of (c : call) : string :=
  match c with Upsert name _ => name end.

Definition is_entity_insert (c : call) : bool := forallb is_entity_point (points_of c).
Definition is_reference_update (c : call) : bool :=
  forallb is_reference_point (points_of c).

(** The relationships a sequence of calls records. *)
Definition recorded_edges (tr : list call) : list reference :=
  c ← tr; p ← filter is_reference_point (points_of c); references_of p.

(** The ids a sequence of calls inserts as entities. *)
Definition inserted_ids (tr : list call) : list string :=
  c ← tr; id <$> filter is_entity_point (points_of c).

(** How many points of a sequence of calls are written under an id. *)
Definition writes_to (i : string) (tr : list call) : nat :=
  length (filter (λ p, id p = i) (tr ≫= points_of)).


(** Every edge a sequence of calls records runs between ids that earlier calls
    of the sequence inserted; [known] holds the ids inserted so far. *)
Fixpoint referential (known : list string) (tr : list call) : bool :=
  match tr with
  | [] => true
  | c :: tr' =>
      forallb (λ e : reference, bool_decide (e.1.1 ∈ known) && bool_decide (e.2 ∈ known))
        (recorded_edges [c])
      && referential (inserted_ids [c] ++ known) tr'
  end.

End Qdrant.

(** ** The Weaviate script *)

Module Weaviate.

(** A property of a class definition: [{"name": ..., "dataType": [...]}]. *)
Record property : Type := Property {
  name : string;
  dataType : list string;
}.

(** A class definition: [{"class": ..., "properties": [...]}]. *)
Record class_def : Type := Class {
  class : string;
  properties : list property;
}.

#[global] Instance property_eq_dec : EqDecision property.
Proof. solve_decision. Defined.
#[global] Instance class_def_eq_dec : EqDecision class_def.
Proof. solve_decision. Defined.

(** What [data_object.create] returns and [reference_add] takes. *)
Abbreviation uuid := string.

(** The three client methods the script calls, with their arguments in the
    order the script passes them. *)
Inductive call : Type :=
| SchemaCreateClass (schema_class : class_def)
| DataObjectCreate (data_object : dict) (class_name : string)
| DataObjectReferenceAdd (from_uuid : uuid) (from_property_name : string)
    (to_uuid : uuid).

#[global] Instance call_eq_dec : EqDecision call.
Proof. solve_decision. Defined.

(** Only the result of [data_object.create] is used by the script. *)
Definition reply (c : call) : Type :=
  match c with
  | DataObjectCreate _ _ => uuid
  | _ => unit
  end.

Definition create_class (c : class_def) : script reply unit :=
  issue (SchemaCreateClass c).
Definition create (d : dict) (class_name : string) : script reply uuid :=
  issue (DataObjectCreate d class_name).
Definition reference_add (from_uuid : uuid) (from_property_name : string)
    (to_uuid : uuid) : script reply unit :=
  issue (DataObjectReferenceAdd from_uuid from_property_name to_uuid).

(** Model of the store: the classes of the schema in creation order, the
    objects by uuid, the cross-references in the order they were added, and
    the number of objects created so far. *)
Record object : Type := Object {
  object_class : string;
  object_properties : dict;
}.

#[global] Instance object_eq_dec : EqDecision object.
Proof. solve_decision. Defined.

Abbreviation reference := (uuid * string * uuid)%type.

Record store : Type := Store {
  schema : list class_def;
  objects : gmap uuid object;
  references : list reference;
  created : nat;
}.

Definition empty : store := Store [] ∅ [] 0.

Section Client.
(** The uuid the store gives to the [n]-th object it creates. *)
Context (new_uuid : nat → uuid).

Definition client : client reply store :=
  λ c st,
    match c return option (reply c * store) with
    | SchemaCreateClass cd =>
        Some (tt, Store (schema st ++ [cd]) (objects st) (references st) (created st))
    | DataObjectCreate d cn =>
        let u := new_uuid (created st) in
        Some (u, Store (schema st) (<[u := Object cn d]> (objects st))
                   (references st) (S (created st)))
    | DataObjectReferenceAdd f r t =>
        Some (tt, Store (schema st) (objects st) (references st ++ [(f, r, t)])
                    (created st))
    end.
End Client.

(** *** The literals of the script *)

Definition person_class : class_def :=
  Class "Person" [Property "name" ["text"]].
Definition place_class : class_def :=
  Class "Place" [Property "name" ["text"]; Property "type" ["text"];
                 Property "state" ["text"]; Property "elevation" ["number"]].
Definition project_class : class_def :=
  Class "Project" [Property "name" ["text"]; Property "status" ["text"];
                   Property "inspiration" ["text"]].
Definition idea_class : class_def :=
  Class "Idea" [Property "name" ["text"]; Property "topics" ["text[]"]].
Definition experience_class : class_def :=
  Class "Experience" [Property "description" ["text"];
                      Property "startDate" ["text"];
                      Property "durationDays" ["number"];
                      Property "durationMonths" ["number"];
                      Property "distanceMiles" ["number"];
                      Property "mentor" ["text"]; Property "product" ["text"];
                      Property "inspirationFor" ["text"]].
Definition event_class : class_def :=
  Class "Event" [Property "name" ["text"]; Property "date" ["text"];
                 Property "activity" ["text"]].

Definition kaiser : dict := dict_of [("name", VText "Kaiser Soze")].
Definition nancy : dict := dict_of [("name", VText "Nancy Soze")].
Definition collegiate : dict :=
  dict_of [("name", VText "Collegiate Peaks Wilderness");
           ("type", VText "Wilderness"); ("state", VText "Colorado")].
Definition princeton : dict :=
  dict_of [("name", VText "Mount Princeton"); ("type", VText "Mountain");
           ("elevation", VNumber 14197); ("state", VText "Colorado")].
Definition salida : dict :=
  dict_of [("name", VText "Salida"); ("type", VText "Town");
           ("state", VText "Colorado")].
Definition wildlife : dict :=
  dict_of [("name", VText "Wildlife Monitoring"); ("status", VText "Concept");
           ("inspiration", VText "Collegiate Peaks trip")].
Definition resilience : dict :=
  dict_of [("name", VText "Community Resilience Through Technology");
           ("topics", VTexts ["mesh networks"; "resource sharing";
                              "AI disaster response"])].
Definition backpacking : dict :=
  dict_of [("description", VText "Solo backpacking trip");
           ("startDate", VText "2024-06"); ("durationDays", VNumber 8);
           ("distanceMiles", VNumber 85);
           ("inspirationFor", VText "Wildlife Monitoring")].
Definition anniversary : dict :=
  dict_of [("name", VText "24th Wedding Anniversary"); ("date", VText "2024-09");
           ("activity", VText "Climbed Mount Princeton")].
Definition blacksmithing : dict :=
  dict_of [("description", VText "Learned blacksmithing in Salida");
           ("startDate", VText "2024-12"); ("durationMonths", VNumber 3);
           ("mentor", VText "Old-timer in Salida");
           ("product", VText "Custom door handles")].

Definition main : script reply unit :=
  create_class person_class ;;
  create_class place_class ;;
  create_class project_class ;;
  create_class idea_class ;;
  create_class experience_class ;;
  create_class event_class ;;
  kaiser_id ← create kaiser "Person";
  nancy_id ← create nancy "Person";
  collegiate_id ← create collegiate "Place";
  princeton_id ← create princeton "Place";
  salida_id ← create salida "Place";
  wildlife_id ← create wildlife "Project";
  resilience_id ← create resilience "Idea";
  backpacking_id ← create backpacking "Experience";
  anniversary_id ← create anniversary "Event";
  blacksmithing_id ← create blacksmithing "Experience";
  reference_add kaiser_id "participatedIn" backpacking_id ;;
  reference_add kaiser_id "inspired" wildlife_id ;;
  reference_add backpacking_id "tookPlaceAt" collegiate_id ;;
  reference_add kaiser_id "marriedTo" nancy_id ;;
  reference_add kaiser_id "celebrated" anniversary_id ;;
  reference_add nancy_id "celebrated" anniversary_id ;;
  reference_add anniversary_id "tookPlaceAt" princeton_id ;;
  reference_add kaiser_id "learnedSkill" blacksmithing_id ;;
  reference_add blacksmithing_id "tookPlaceAt" salida_id ;;
  reference_add kaiser_id "generatedIdea" resilience_id ;;
  mret tt.

(** *** Reading the calls and the store *)

Inductive kind : Type := Schema | Insert | Reference.

#[global] Instance kind_eq_dec : EqDecision kind.
Proof. solve_decision. Defined.

Definition kind_of (c : call) : kind :=
  match c with
  | SchemaCreateClass _ => Schema
  | DataObjectCreate _ _ => Insert
  | DataObjectReferenceAdd _ _ _ => Reference
  end.

Definition is_kind (k : kind) (c : call) : bool := bool_decide (kind_of c = k).

(** The uuid an event returned, when it is a [data_object.create] that
    returned. *)
Definition returned (e : event reply) : option uuid :=
  match e with
  | Returned c r =>
      match c return reply c → option uuid with
      | DataObjectCreate _ _ => λ u, Some u
      | _ => λ _, None
      end r
  | Failed _ => None
  end.

(** The objects a sequence of calls asks to create, in order. *)
Definition created_objects (tr : list call) : list object :=
  omap (λ c, match c with
             | DataObjectCreate d cn => Some (Object cn d)
             | _ => None
             end) tr.

(** How many create calls of a sequence pass an object. *)
Definition creates_of (o : object) (tr : list call) : nat :=
  length (filter (λ o', o' = o) (created_objects tr)).

(** The objects a log created, each with the uuid its create call
    returned. *)
Definition created_with_ids (log : list (event reply)) : list (uuid * object) :=
  omap (λ e, match e with
             | Returned c r =>
                 match c return reply c → option (uuid * object) with
                 | DataObjectCreate d cn => λ u, Some (u, Object cn d)
                 | _ => λ _, None
                 end r
             | Failed _ => None
             end) log.

(** The cross-references a sequence of calls asks to add, in order. *)
Definition added_references (tr : list call) : list reference :=
  omap (λ c, match c with
             | DataObjectReferenceAdd f r t => Some (f, r, t)
             | _ => None
             end) tr.

(** Every cross-reference of a log runs between uuids that earlier
    [data_object.create] calls of the log returned; [known] holds the uuids
    returned so far. *)
Fixpoint referential (known : list uuid) (log : list (event reply)) : Prop :=
  match log with
  | [] => True
  | e :: log' =>
      match call_of e with
      | DataObjectReferenceAdd f _ t => f ∈ known ∧ t ∈ known
      | _ => True
      end
      ∧ referential (from_option (λ u, u :: known) known (returned e)) log'
  end.

End Weaviate.


(** ** The example content and the two runs *)

(** The ten entities, by the name both scripts use for them: the point id of
    the Qdrant script, and the variable [<name>_id] of the Weaviate script.
    The order is the order of insertion, the same in both scripts. *)
Definition entity_names : list string :=
  ["kaiser"; "nancy"; "collegiate"; "princeton"; "salida"; "wildlife";
   "resilience"; "backpacking"; "anniversary"; "blacksmithing"].

(** The entity type and the attribute values of each of them, written out
    as the table of the example content. *)
Definition example_entities : list (string * Weaviate.object) :=
  [("kaiser",
    Weaviate.Object "Person" (dict_of [("name", VText "Kaiser Soze")]));
   ("nancy",
    Weaviate.Object "Person" (dict_of [("name", VText "Nancy Soze")]));
   ("collegiate",
    Weaviate.Object "Place"
      (dict_of [("name", VText "Collegiate Peaks Wilderness");
                ("type", VText "Wilderness"); ("state", VText "Colorado")]));
   ("princeton",
    Weaviate.Object "Place"
      (dict_of [("name", VText "Mount Princeton"); ("type", VText "Mountain");
                ("state", VText "Colorado"); ("elevation", VNumber 14197)]));
   ("salida",
    Weaviate.Object "Place"
      (dict_of [("name", VText "Salida"); ("type", VText "Town");
                ("state", VText "Colorado")]));
   ("wildlife",
    Weaviate.Object "Project"
      (dict_of [("name", VText "Wildlife Monitoring");
                ("status", VText "Concept");
                ("inspiration", VText "Collegiate Peaks trip")]));
   ("resilience",
    Weaviate.Object "Idea"
      (dict_of [("name", VText "Community Resilience Through Technology");
                ("topics", VTexts ["mesh networks"; "resource sharing";
                                   "AI disaster response"])]));
   ("backpacking",
    Weaviate.Object "Experience"
      (dict_of [("description", VText "Solo backpacking trip");
                ("startDate", VText "2024-06"); ("durationDays", VNumber 8);
                ("distanceMiles", VNumber 85);
                ("inspirationFor", VText "Wildlife Monitoring")]));
   ("anniversary",
    Weaviate.Object "Event"
      (dict_of [("name", VText "24th Wedding Anniversary");
                ("date", VText "2024-09");
                ("activity", VText "Climbed Mount Princeton")]));
   ("blacksmithing",
    Weaviate.Object "Experience"
      (dict_of [("description", VText "Learned blacksmithing in Salida");
                ("startDate", VText "2024-12"); ("durationMonths", VNumber 3);
                ("mentor", VText "Old-timer in Salida");
                ("product", VText "Custom door handles")]))].

(** The ten relationships of the example: source, relation name, target. *)
Definition listed_edges : list (string * string * string) :=
  [("kaiser", "participatedIn", "backpacking");
   ("kaiser", "inspired", "wildlife");
   ("backpacking", "tookPlaceAt", "collegiate");
   ("kaiser", "marriedTo", "nancy");
   ("kaiser", "celebrated", "anniversary");
   ("nancy", "celebrated", "anniversary");
   ("anniversary", "tookPlaceAt", "princeton");
   ("kaiser", "learnedSkill", "blacksmithing");
   ("blacksmithing", "tookPlaceAt", "salida");
   ("kaiser", "generatedIdea", "resilience")].

(** The relation names of the data model. *)
Definition relation_names : list string :=
  ["participatedIn"; "inspired"; "marriedTo"; "celebrated"; "learnedSkill";
   "generatedIdea"; "tookPlaceAt"].

(** The place categories of the data model. *)
Definition place_categories : list value :=
  [VText "Wilderness"; VText "Mountain"; VText "Town"].

Definition is_text (o : option value) : bool :=
  match o with Some (VText _) => true | _ => false end.

Definition is_number (o : option value) : bool :=
  match o with Some (VNumber _) => true | _ => false end.

(** A place of the data model: a display name, a category among the three,
    a state, and possibly an elevation.  The key of the category is
    ["placeType"] in a Qdrant payload and ["type"] in a Weaviate object. *)
Definition is_place (category_key : string) (d : dict) : bool :=
  is_text (d !! "name")
  && from_option (λ v, bool_decide (v ∈ place_categories)) false (d !! category_key)
  && is_text (d !! "state")
  && (is_number (d !! "elevation") || bool_decide (d !! "elevation" = None)).

Definition rename_key (k k' : string) (d : dict) : dict :=
  match d !! k with
  | Some v => <[k' := v]> (delete k d)
  | None => d
  end.

(** The entity a Qdrant point encodes.  The payload key ["type"] is the tag of
    the entity type, which the Weaviate script passes as the class name; the
    category of a place, ["placeType"] in a payload, is the property ["type"]
    of the class [Place]. *)
Definition as_object (p : Qdrant.point) : option Weaviate.object :=
  match Qdrant.payload p !! "type" with
  | Some (VText ty) =>
      Some (Weaviate.Object ty
              (rename_key "placeType" "type" (delete "type" (Qdrant.payload p))))
  | _ => None
  end.

(** The two call shapes of the interface description: an insert of a record,
    or the addition of a reference. *)
Definition has_stated_shape (c : Weaviate.call) : bool :=
  Weaviate.is_kind Weaviate.Insert c || Weaviate.is_kind Weaviate.Reference c.

Definition qdrant_run : list (event Qdrant.reply) * outcome Qdrant.store unit :=
  exec Qdrant.client Qdrant.main ∅.
Definition qdrant_trace : list Qdrant.call := trace Qdrant.client Qdrant.main ∅.
Definition qdrant_store : Qdrant.store := final qdrant_run.2.

Section WeaviateRun.
Context (new_uuid : nat → Weaviate.uuid).

Definition weaviate_run : list (event Weaviate.reply) * outcome Weaviate.store unit :=
  exec (Weaviate.client new_uuid) Weaviate.main Weaviate.empty.
Definition weaviate_log : list (event Weaviate.reply) := weaviate_run.1.
Definition weaviate_trace : list Weaviate.call :=
  trace (Weaviate.client new_uuid) Weaviate.main Weaviate.empty.
Definition weaviate_store : Weaviate.store := final weaviate_run.2.

(** The uuid of a named entity: [<name>_id] is bound to what the create call
    of the entity returned. *)
Definition uuid_of (name : string) : option Weaviate.uuid :=
  (λ ix, new_uuid ix.1) <$> list_find (λ n, n = name) entity_names.

Definition edge_uuids (e : string * string * string) : option Weaviate.reference :=
  s ← uuid_of e.1.1; t ← uuid_of e.2; Some (s, e.1.2, t).
End WeaviateRun.

(** ** The schema of the Weaviate script *)

(** The two scripts name the same six core types in their header. *)
Definition core_types : list string :=
  ["Person"; "Place"; "Event"; "Project"; "Idea"; "Experience"].

(** The data type under which the schema step declares a value: ["text"] for
    a string, ["number"] for an integer, ["text[]"] for a list of strings. *)
Definition data_type_of (v : value) : string :=
  match v with
  | VText _ => "text"
  | VNumber _ => "number"
  | VTexts _ => "text[]"
  end.

(** The classes a sequence of calls creates, in order. *)
Definition created_classes (tr : list Weaviate.call) : list Weaviate.class_def :=
  omap (λ c, match c with
             | Weaviate.SchemaCreateClass cd => Some cd
             | _ => None
             end) tr.

(** An object fits a class definition: it names the class, and the class
    declares each of its properties with the data type of its value. *)
Definition fits (cd : Weaviate.class_def) (o : Weaviate.object) : bool :=
  bool_decide (Weaviate.class cd = Weaviate.object_class o)
  && forallb (λ kv, bool_decide (Weaviate.Property kv.1 [data_type_of kv.2]
                                 ∈ Weaviate.properties cd))
       (map_to_list (Weaviate.object_properties o)).

(** Every create call of a sequence passes an object that fits a class
    created earlier in the sequence; [schema] holds the classes created so
    far. *)
Fixpoint schema_respected (schema : list Weaviate.class_def)
    (tr : list Weaviate.call) : bool :=
  match tr with
  | [] => true
  | c :: tr' =>
      match c with
      | Weaviate.SchemaCreateClass cd => schema_respected (schema ++ [cd]) tr'
      | Weaviate.DataObjectCreate d cn =>
          existsb (λ cd, fits cd (Weaviate.Object cn d)) schema
          && schema_respected schema tr'
      | Weaviate.DataObjectReferenceAdd _ _ _ => schema_respected schema tr'
      end
  end.

(** ** The graph of the example *)

(** The class of the objects each relation points to, as the
    [reference_add] calls use the relations. *)
Definition relation_targets : gmap string string :=
  list_to_map [("participatedIn", "Experience"); ("inspired", "Project");
               ("tookPlaceAt", "Place"); ("marriedTo", "Person");
               ("celebrated", "Event"); ("learnedSkill", "Experience");
               ("generatedIdea", "Idea")].

(** The listed edges between the positions of their entities in the order of
    insertion. *)
Definition index_edges : list (nat * string * nat) :=
  default []
    (mapM (λ e : string * string * string,
             i ← list_find (λ n, n = e.1.1) entity_names;
             j ← list_find (λ n, n = e.2) entity_names;
             Some (i.1, e.1.2, j.1))
       listed_edges).

(** ** The calls of the Weaviate script, as its text lists them *)

(** Six class creations, the creates of the ten entities, and the ten listed
    edges, where [ids i] stands for the variable that the script binds to the
    result of its create number [i] ([kaiser_id] for [0], [nancy_id] for
    [1], ...). *)
Definition script_calls (ids : nat → Weaviate.uuid) : list Weaviate.call :=
  (Weaviate.SchemaCreateClass
     <$> [Weaviate.person_class; Weaviate.place_class; Weaviate.project_class;
          Weaviate.idea_class; Weaviate.experience_class; Weaviate.event_class])
  ++ ((λ no : string * Weaviate.object,
         Weaviate.DataObjectCreate (Weaviate.object_properties no.2)
           (Weaviate.object_class no.2)) <$> example_entities)
  ++ ((λ e : nat * string * nat,
         Weaviate.DataObjectReferenceAdd (ids e.1.1) e.1.2 (ids e.2)) <$> index_edges).

(** What the create number [i] of a log returned.  A create that did not
    return binds no variable, and no call after it is issued. *)
Definition returned_ids (log : list (event Weaviate.reply)) (i : nat) : Weaviate.uuid :=
  default "" (omap Weaviate.returned log !! i).

(** ** Runs in general *)

Section Runs.
Context {call : Type} {reply : call → Type}.

Lemma exec_issue {world A} (h : client reply world) c (k : reply c → script reply A) w :
  exec h (Issue c k) w
  = match h c w with
    | None => ([Failed c], Raised w)
    | Some (r, w') => (Returned c r :: (exec h (k r) w').1, (exec h (k r) w').2)
    end.
Proof.
  cbn. destruct (h c w) as [[r w'] |]; [| done]. by destruct (exec h (k r) w').
Qed.

Lemma failing_at_eq {world} n (h : client reply world) c i w :
  failing_at n h c (i, w)
  = if decide (i = n) then None
    else match h c w with
         | None => None
         | Some (r, w') => Some (r, (S i, w'))
         end.
Proof. done. Qed.

(** A run against a client whose call [n] raises issues the calls of the
    run against the client itself up to that call, and stops. *)
Lemma trace_failing_at {world A} (h : client reply world) (s : script reply A) w i n :
  i ≤ n →
  trace (failing_at n h) s (i, w) = take (S (n - i)) (trace h s w).
Proof.
  unfold trace. revert w i.
  induction s as [a | c k IH]; intros w i Hin; [done |].
  rewrite (exec_issue h), (exec_issue (failing_at n h)), failing_at_eq.
  destruct (decide (i = n)) as [-> | Hne].
  - assert (n - n = 0) as -> by lia. destruct (h c w) as [[r w'] |]; reflexivity.
  - destruct (h c w) as [[r w'] |]; cbn; [| by rewrite take_nil].
    rewrite IH by lia. by assert (n - i = S (n - S i)) as -> by lia.
Qed.

(** Such a run completes only when the call [n] is never reached. *)
Lemma completes_failing_at {world A} (h : client reply world) (s : script reply A) w
    i n :
  i ≤ n →
  completes (exec (failing_at n h) s (i, w)).2
  = completes (exec h s w).2 && bool_decide (length (trace h s w) ≤ n - i).
Proof.
  unfold trace. revert w i.
  induction s as [a | c k IH]; intros w i Hin.
  { cbn. by rewrite bool_decide_true by lia. }
  rewrite (exec_issue h), (exec_issue (failing_at n h)), failing_at_eq.
  destruct (decide (i = n)) as [-> | Hne].
  - assert (n - n = 0) as -> by lia.
    destruct (h c w) as [[r w'] |]; cbn;
      by rewrite ?bool_decide_false, ?andb_false_r by lia.
  - destruct (h c w) as [[r w'] |]; [| done]. cbn.
    rewrite IH by lia. f_equal. apply bool_decide_ext. lia.
Qed.

Lemma prefix_by_take {X} (l l' : list X) :
  take (length l) l' = l → l `prefix_of` l'.
Proof. intros <-. apply prefix_take. Qed.

Lemma precedes_spec {X} (P Q : X → bool) (l : list X) :
  precedes P Q l = true ↔
  ∃ i j x y, i < j ∧ l !! i = Some x ∧ l !! j = Some y ∧ P x = true ∧ Q y = true.
Proof.
  induction l as [| a l IH]; cbn.
  { split; [done |]. by intros (i & j & x & y & _ & ? & _). }
  rewrite orb_true_iff, andb_true_iff, existsb_exists, IH. split.
  - intros [[HP (y & [j Hj]%list_elem_of_In%list_elem_of_lookup & HQ)]
           | (i & j & x & y & ? & ? & ? & ? & ?)].
    + exists 0, (S j), a, y. repeat split; [lia | done..].
    + exists (S i), (S j), x, y. repeat split; [lia | done..].
  - intros (i & j & x & y & Hij & Hi & Hj & HP & HQ).
    destruct j as [| j]; [lia |]. destruct i as [| i]; simplify_eq/=.
    + left. split; [done |]. exists y. split; [| done].
      apply list_elem_of_In, list_elem_of_lookup. eauto.
    + right. exists i, j, x, y. repeat split; [lia | done..].
Qed.
End Runs.

(** ** The Weaviate store along a run *)

Section WeaviateStore.
Context (new_uuid : nat → Weaviate.uuid) `{!Inj (=) (=) new_uuid}.
Implicit Types (st : Weaviate.store) (l : list Weaviate.object).

(** [holds st l]: the store [st] holds the objects [l], in creation order,
    each under the uuid the store gave it, and nothing else. *)
Definition holds st l : Prop :=
  Weaviate.created st = length l
  ∧ (∀ i, Weaviate.objects st !! new_uuid i = l !! i)
  ∧ (∀ u, is_Some (Weaviate.objects st !! u) → ∃ i, u = new_uuid i).

Lemma holds_empty : holds Weaviate.empty [].
Proof. split_and!; [done.. |]. by intros u [? ?]. Qed.

Lemma created_objects_cons c tr :
  Weaviate.created_objects (c :: tr)
  = Weaviate.created_objects [c] ++ Weaviate.created_objects tr.
Proof. by destruct c. Qed.

Lemma added_references_cons c tr :
  Weaviate.added_references (c :: tr)
  = Weaviate.added_references [c] ++ Weaviate.added_references tr.
Proof. by destruct c. Qed.

(** The client never raises. *)
Lemma client_total c st : is_Some (Weaviate.client new_uuid c st).
Proof. destruct c; cbn; eauto. Qed.

(** One call: a create adds its object under a fresh uuid; no call changes
    or removes an object already stored. *)
Lemma client_step c st l r st' :
  holds st l →
  Weaviate.client new_uuid c st = Some (r, st') →
  holds st' (l ++ Weaviate.created_objects [c])
  ∧ Weaviate.objects st ⊆ Weaviate.objects st'
  ∧ Weaviate.references st' = Weaviate.references st ++ Weaviate.added_references [c].
Proof.
  intros (Hn & Hl & Hnone) Hc.
  destruct c as [cd | d cn | f rel t]; simplify_eq/=; rewrite ?app_nil_r.
  1, 3: by repeat split.
  assert (Weaviate.objects st !! new_uuid (Weaviate.created st) = None) as Hfresh.
  { rewrite Hl, Hn. apply lookup_ge_None. lia. }
  split; [| split; [by apply insert_subseteq | done]].
  unfold holds; cbn. split_and!.
  - rewrite length_app. cbn. lia.
  - intros i. destruct (decide (i = Weaviate.created st)) as [-> | Hne].
    + rewrite lookup_insert_eq, Hn. by rewrite list_lookup_middle.
    + rewrite lookup_insert_ne by (by intros ?%(inj new_uuid)).
      rewrite Hl. destruct (decide (i < length l)).
      * by rewrite lookup_app_l.
      * rewrite !lookup_ge_None_2; [done | | lia].
        rewrite length_app. cbn. lia.
  - intros u Hu. destruct (decide (u = new_uuid (Weaviate.created st))) as [-> | Hne].
    + by eexists.
    + rewrite lookup_insert_ne in Hu by done. by apply Hnone.
Qed.

(** A whole run, of any script: the store ends up holding the objects the
    create calls of the run passed, and its cross-references are those the
    run added, in order. *)
Lemma exec_holds {A} (s : script Weaviate.reply A) st l :
  holds st l →
  let tr := trace (Weaviate.client new_uuid) s st in
  let st' := final (exec (Weaviate.client new_uuid) s st).2 in
  holds st' (l ++ Weaviate.created_objects tr)
  ∧ Weaviate.references st' = Weaviate.references st ++ Weaviate.added_references tr.
Proof.
  unfold trace. revert st l. induction s as [a | c k IH]; intros st l Hst; cbn zeta.
  { cbn. by rewrite !app_nil_r. }
  rewrite exec_issue.
  destruct (client_total c st) as [[r st1] Hc]. rewrite Hc.
  destruct (client_step _ _ _ _ _ Hst Hc) as (Hst1 & _ & Hrefs).
  destruct (IH r st1 _ Hst1) as [Hobjs Hrefs']. cbn [fst snd fmap list_fmap call_of].
  rewrite created_objects_cons, added_references_cons, !app_assoc.
  split; [done |]. by rewrite Hrefs', Hrefs.
Qed.

Lemma exec_from_empty {A} (s : script Weaviate.reply A) :
  holds (final (exec (Weaviate.client new_uuid) s Weaviate.empty).2)
    (Weaviate.created_objects (trace (Weaviate.client new_uuid) s Weaviate.empty))
  ∧ Weaviate.references (final (exec (Weaviate.client new_uuid) s Weaviate.empty).2)
    = Weaviate.added_references (trace (Weaviate.client new_uuid) s Weaviate.empty).
Proof. exact (exec_holds s _ _ holds_empty). Qed.

Lemma states_head {A} (s : script Weaviate.reply A) st :
  states (Weaviate.client new_uuid) s st !! 0 = Some st.
Proof. by destruct s. Qed.

(** Along a run of any script, an object once stored stays as it is. *)
Lemma states_objects_mono {A} (s : script Weaviate.reply A) st l i j sti stj :
  holds st l →
  i ≤ j →
  states (Weaviate.client new_uuid) s st !! i = Some sti →
  states (Weaviate.client new_uuid) s st !! j = Some stj →
  Weaviate.objects sti ⊆ Weaviate.objects stj.
Proof.
  revert st l i j sti stj.
  induction s as [a | c k IH]; intros st l i j sti stj Hst Hij Hi Hj.
  { destruct i, j; by simplify_eq/=. }
  cbn [states] in Hi, Hj.
  destruct (client_total c st) as [[r st1] Hc]. rewrite Hc in Hi, Hj.
  destruct (client_step _ _ _ _ _ Hst Hc) as (Hst1 & Hsub & _).
  destruct j as [| j]; [by assert (i = 0) as -> by lia; simplify_eq/= |].
  destruct i as [| i]; simplify_eq/=.
  - trans (Weaviate.objects st1); [done |].
    eapply (IH r st1 _ 0 j st1 stj); [done | lia | apply states_head | done].
  - eapply (IH r st1 _ i j); [done | lia | done..].
Qed.

(** After [j] calls of a run, of any script, the store holds the objects
    that the create calls among them passed. *)
Lemma states_holds {A} (s : script Weaviate.reply A) st l j stj :
  holds st l →
  states (Weaviate.client new_uuid) s st !! j = Some stj →
  holds stj
    (l ++ Weaviate.created_objects (take j (trace (Weaviate.client new_uuid) s st))).
Proof.
  unfold trace. revert st l j stj.
  induction s as [a | c k IH]; intros st l j stj Hst Hj.
  { destruct j as [| j]; [| done]. cbn in Hj. simplify_eq. by rewrite app_nil_r. }
  destruct j as [| j].
  { cbn in Hj. simplify_eq. rewrite take_0. cbn. by rewrite app_nil_r. }
  cbn [states] in Hj. rewrite exec_issue.
  destruct (client_total c st) as [[r st1] Hc]. rewrite Hc in Hj |- *.
  destruct (client_step _ _ _ _ _ Hst Hc) as (Hst1 & _ & _).
  cbn [lookup list_lookup] in Hj.
  specialize (IH r st1 _ j stj Hst1 Hj).
  cbn [fst snd fmap list_fmap call_of take].
  rewrite created_objects_cons, app_assoc. exact IH.
Qed.

Lemma states_from_empty {A} (s : script Weaviate.reply A) j stj :
  states (Weaviate.client new_uuid) s Weaviate.empty !! j = Some stj →
  holds stj
    (Weaviate.created_objects
       (take j (trace (Weaviate.client new_uuid) s Weaviate.empty))).
Proof. exact (states_holds s _ [] j stj holds_empty). Qed.
End WeaviateStore.

(** ** The Qdrant store under an upsert *)

Lemma upsert_points_other (pts : list Qdrant.point) (coll : gmap string Qdrant.point)
    (i : string) :
  i ∉ Qdrant.id <$> pts →
  Qdrant.upsert_points pts coll !! i = coll !! i.
Proof.
  unfold Qdrant.upsert_points. revert coll.
  induction pts as [| p pts IH]; intros coll Hi; [done |].
  cbn in *. apply not_elem_of_cons in Hi as [Hp Hpts].
  rewrite IH by done. by rewrite lookup_insert_ne.
Qed.

(** An upsert changes nothing but the points it names, in the collection it
    names. *)
Lemma upsert_frame (c : Qdrant.call) (st : gmap string (gmap string Qdrant.point))
    (name i : string) :
  name ≠ Qdrant.collection_of c ∨ i ∉ Qdrant.id <$> Qdrant.points_of c →
  Qdrant.stored (Qdrant.upsert c st) name i = Qdrant.stored st name i.
Proof.
  destruct c as [cname pts]. unfold Qdrant.stored. cbn.
  destruct (decide (name = cname)) as [-> | Hne].
  - intros [? | Hi]; [done |]. rewrite lookup_insert_eq. cbn.
    rewrite upsert_points_other by done. by destruct (st !! cname).
  - intros _. by rewrite lookup_insert_ne.
Qed.

(** ** The two runs *)

(** Closed goals are settled by evaluation. *)
Ltac by_eval := vm_compute; reflexivity.
Ltac by_decide := apply (bool_decide_unpack _); vm_compute; exact I.

(** The calls of the Qdrant script. *)
Lemma qdrant_trace_eq :
  qdrant_trace = [Qdrant.store_entities; Qdrant.add_relationships].
Proof. by_eval. Qed.

(** The create calls of the Weaviate script pass the ten entities in
    order, whatever uuids the store returns. *)
Lemma weaviate_created (new_uuid : nat → Weaviate.uuid) :
  Weaviate.created_objects (weaviate_trace new_uuid) = example_entities.*2.
Proof. by_eval. Qed.

(** Among the first [j] calls of the script are the creates of the first
    [j - 6] entities: the six class creations come first, then one create for
    each entity. *)
Lemma weaviate_created_take (new_uuid : nat → Weaviate.uuid) (j : nat) :
  Weaviate.created_objects
    (take j (trace (Weaviate.client new_uuid) Weaviate.main Weaviate.empty))
  = take (j - 6) example_entities.*2.
Proof.
  do 27 (destruct j as [| j]; [by_eval |]).
  assert (length (trace (Weaviate.client new_uuid) Weaviate.main Weaviate.empty) = 26)
    as Hlen by by_eval.
  assert (length example_entities.*2 = 10) as Hlen' by by_eval.
  rewrite !take_ge by lia. by_eval.
Qed.

(** Its [reference_add] calls pass the ten listed edges in order, between
    the uuids returned for their endpoints. *)
Lemma weaviate_added (new_uuid : nat → Weaviate.uuid) :
  Some (Weaviate.added_references (weaviate_trace new_uuid))
  = mapM (edge_uuids new_uuid) listed_edges.
Proof. by_eval. Qed.

Lemma weaviate_holds (new_uuid : nat → Weaviate.uuid) `{!Inj (=) (=) new_uuid} :
  holds new_uuid (weaviate_store new_uuid) example_entities.*2
  ∧ Some (Weaviate.references (weaviate_store new_uuid))
    = mapM (edge_uuids new_uuid) listed_edges.
Proof.
  rewrite <- (weaviate_added new_uuid), <- (weaviate_created new_uuid).
  unfold weaviate_store, weaviate_run, weaviate_trace.
  destruct (exec_from_empty new_uuid Weaviate.main) as [Hobjs Hrefs].
  split; [exact Hobjs | exact (f_equal Some Hrefs)].
Qed.





(** C2, as stated, fails on the edges: the Weaviate script adds the ten
    listed edges, and the one from [backpacking] to [collegiate] is not among
    those the Qdrant script records. *)
Lemma same_content_counterexample :
  Some (Weaviate.added_references (weaviate_trace pretty))
  = mapM (edge_uuids pretty) listed_edges
  ∧ ("backpacking", "tookPlaceAt", "collegiate") ∈ listed_edges
  ∧ ("backpacking", "tookPlaceAt", "collegiate") ∉ Qdrant.recorded_edges qdrant_trace.
Proof. split_and!; [by_eval | by_decide | by_decide]. Qed.

(** C2, amended.  Both scripts insert the same ten entities in the same
    order: the points the Qdrant script upserts with an embedding have the
    ten entity names as ids, and each encodes the type and the attribute
    values that the Weaviate script passes to the create call of the same
    position.  The edges differ: the Weaviate script adds the ten listed
    edges, the Qdrant script records those six of them whose source is
    ["kaiser"], and no other. *)
Theorem same_content (new_uuid : nat → Weaviate.uuid) :
  let entity_points := filter Qdrant.is_entity_point (qdrant_trace ≫= Qdrant.points_of) in
  Qdrant.id <$> entity_points = entity_names
  ∧ mapM as_object entity_points
    = Some (Weaviate.created_objects (weaviate_trace new_uuid))
  ∧ Some (Weaviate.added_references (weaviate_trace new_uuid))
    = mapM (edge_uuids new_uuid) listed_edges
  ∧ Qdrant.recorded_edges qdrant_trace
    ≡ₚ filter (λ e, e.1.1 = "kaiser") listed_edges.
Proof.
  cbn zeta. split_and!; [by_eval | by_eval | by_eval | by_decide].
Qed.

(** C3, as stated, fails on the Qdrant script: two points are written under
    the id ["kaiser"], and the second replaces the record the first stored. *)
Lemma written_once_counterexample :
  Qdrant.writes_to "kaiser" qdrant_trace = 2
  ∧ Qdrant.stored (Qdrant.upsert Qdrant.store_entities ∅) "entities" "kaiser"
    = Qdrant.entity_points !! 0
  ∧ Qdrant.stored qdrant_store "entities" "kaiser" = Qdrant.relationship_points !! 0
  ∧ Qdrant.entity_points !! 0 ≠ Qdrant.relationship_points !! 0.
Proof. split_and!; [by_eval | by_eval | by_eval | by_decide]. Qed.

(** No upsert removes a point. *)
Lemma upsert_keeps (c : Qdrant.call) (st : gmap string (gmap string Qdrant.point))
    (name i : string) :
  is_Some (Qdrant.stored st name i) →
  is_Some (Qdrant.stored (Qdrant.upsert c st) name i).
Proof.
  destruct (decide (name = Qdrant.collection_of c)) as [-> | Hname];
    [| by rewrite upsert_frame by (by left)].
  destruct (decide (i ∈ Qdrant.id <$> Qdrant.points_of c)) as [Hi | Hi];
    [| by rewrite upsert_frame by (by right)].
  intros _. destruct c as [cname pts].
  unfold Qdrant.stored, Qdrant.upsert_points. cbn in *.
  rewrite lookup_insert_eq. cbn. generalize (default ∅ (st !! cname)).
  induction pts as [| p pts IH]; intros coll; [by apply elem_of_nil in Hi |].
  cbn. destruct (decide (i ∈ Qdrant.id <$> pts)) as [Hin | Hnin]; [by apply IH |].
  apply elem_of_cons in Hi as [-> | ?]; [| done].
  fold (Qdrant.upsert_points pts (<[Qdrant.id p := p]> coll)).
  rewrite upsert_points_other by done. rewrite lookup_insert_eq. by eexists.
Qed.

(** C3, amended.  In the Weaviate script each of the ten entities is passed
    to exactly one create call: the creates of the log are those of the ten
    entities, in order, the create number [i] returning the uuid number [i]
    of the store.  Given that the store returns distinct uuids, no uuid is
    returned twice, and after [j] calls of the run the store holds exactly
    the entities created so far, the first [j - 6] of the ten, each under its
    uuid with the class and the attribute values it was created with: along
    the run an object once stored is never changed or removed.  In the Qdrant
    script each of the nine ids other than ["kaiser"] is written once, and
    ["kaiser"] twice: by the entity upsert and by the relationship upsert.
    After the first upsert and after the second the collection holds the ten
    ids, and no upsert removes a point. *)
Theorem written_once (new_uuid : nat → Weaviate.uuid) `{!Inj (=) (=) new_uuid} :
  Weaviate.created_with_ids (weaviate_log new_uuid)
  = zip (new_uuid <$> seq 0 10) example_entities.*2
  ∧ Forall (λ no, Weaviate.creates_of no.2 (weaviate_trace new_uuid) = 1)
      example_entities
  ∧ NoDup (Weaviate.created_with_ids (weaviate_log new_uuid)).*1
  ∧ length (states (Weaviate.client new_uuid) Weaviate.main Weaviate.empty) = 27
  ∧ (∀ j st,
       states (Weaviate.client new_uuid) Weaviate.main Weaviate.empty !! j = Some st →
       holds new_uuid st (take (j - 6) example_entities.*2))
  ∧ (∀ i j sti stj,
       i ≤ j →
       states (Weaviate.client new_uuid) Weaviate.main Weaviate.empty !! i = Some sti →
       states (Weaviate.client new_uuid) Weaviate.main Weaviate.empty !! j = Some stj →
       Weaviate.objects sti ⊆ Weaviate.objects stj)
  ∧ Forall (λ n, Qdrant.writes_to n qdrant_trace = if bool_decide (n = "kaiser") then 2 else 1)
      entity_names
  ∧ Forall (λ st : gmap string (gmap string Qdrant.point),
              dom (default ∅ (st !! "entities")) = list_to_set entity_names)
      (drop 1 (states Qdrant.client Qdrant.main ∅))
  ∧ (∀ c st name i,
       is_Some (Qdrant.stored st name i) →
       is_Some (Qdrant.stored (Qdrant.upsert c st) name i)).
Proof.
  split_and!.
  - by_eval.
  - clear. by_decide.
  - assert ((Weaviate.created_with_ids (weaviate_log new_uuid)).*1
            = new_uuid <$> seq 0 10) as -> by by_eval.
    apply NoDup_fmap_2; [done | apply NoDup_seq].
  - by_eval.
  - intros j st Hj. rewrite <- (weaviate_created_take new_uuid j).
    exact (states_from_empty new_uuid Weaviate.main j st Hj).
  - intros i j sti stj.
    exact (states_objects_mono new_uuid Weaviate.main _ _ i j sti stj
             (holds_empty new_uuid)).
  - clear. repeat (apply Forall_cons; split; [by_eval |]). constructor.
  - clear. by_decide.
  - exact upsert_keeps.
Qed.

Lemma written_once_witness :
  Inj (=) (=) (pretty : nat → string)
  ∧ Weaviate.created_with_ids (weaviate_log pretty)
    = zip ((pretty : nat → string) <$> seq 0 10) example_entities.*2.
Proof.
  split; [apply _ |]. exact (proj1 (written_once pretty)).
Defined.

(** C4.  In the Qdrant script the relationship upsert does not precede the
    entity upsert; in the Weaviate script no [reference_add] precedes a
    [data_object.create] and no [data_object.create] precedes a
    [schema.create_class]: the calls are six class creations, then ten
    creates, then ten reference additions, whatever uuids the store
    returns. *)
Theorem call_order (new_uuid : nat → Weaviate.uuid) :
  Qdrant.is_entity_insert <$> qdrant_trace = [true; false]
  ∧ Qdrant.is_reference_update <$> qdrant_trace = [false; true]
  ∧ precedes Qdrant.is_reference_update Qdrant.is_entity_insert qdrant_trace = false
  ∧ Weaviate.kind_of <$> weaviate_trace new_uuid
    = replicate 6 Weaviate.Schema ++ replicate 10 Weaviate.Insert
      ++ replicate 10 Weaviate.Reference
  ∧ precedes (Weaviate.is_kind Weaviate.Reference) (Weaviate.is_kind Weaviate.Insert)
      (weaviate_trace new_uuid) = false
  ∧ precedes (Weaviate.is_kind Weaviate.Insert) (Weaviate.is_kind Weaviate.Schema)
      (weaviate_trace new_uuid) = false.
Proof. split_and!; by_eval. Qed.

(** C5.  Every relationship either script records is a triple of a source
    identifier, a relation name and a target identifier; the relation name is
    one of the seven of the data model, and both identifiers are identifiers
    of the ten entities: uuids the create calls returned in the Weaviate
    script, entity names in the Qdrant script. *)
Theorem edges_are_named (new_uuid : nat → Weaviate.uuid) :
  Forall (λ e : Weaviate.reference,
            e.1.2 ∈ relation_names
            ∧ e.1.1 ∈ (Weaviate.created_with_ids (weaviate_log new_uuid)).*1
            ∧ e.2 ∈ (Weaviate.created_with_ids (weaviate_log new_uuid)).*1)
    (Weaviate.added_references (weaviate_trace new_uuid))
  ∧ Forall (λ e : Qdrant.reference,
              e.1.2 ∈ relation_names ∧ e.1.1 ∈ entity_names ∧ e.2 ∈ entity_names)
      (Qdrant.recorded_edges qdrant_trace).
Proof.
  split; [| by_decide].
  vm_compute.
  repeat (apply Forall_cons; split; [split_and!; set_solver |]). constructor.
Qed.

(** C6.  Every place either script inserts has an identifier, a display
    name, a category among Wilderness, Mountain and Town, and a state; the
    elevation is present on one of the three places and absent on the two
    others. *)
Theorem places_are_well_formed (new_uuid : nat → Weaviate.uuid) :
  let qplaces :=
    filter (λ p, Qdrant.payload p !! "type" = Some (VText "Place"))
      (qdrant_trace ≫= Qdrant.points_of) in
  let wplaces :=
    filter (λ uo, Weaviate.object_class uo.2 = "Place")
      (Weaviate.created_with_ids (weaviate_log new_uuid)) in
  Qdrant.id <$> qplaces = ["collegiate"; "princeton"; "salida"]
  ∧ Forall (λ p, is_place "placeType" (Qdrant.payload p) = true) qplaces
  ∧ (λ p, bool_decide (is_Some (Qdrant.payload p !! "elevation"))) <$> qplaces
    = [false; true; false]
  ∧ wplaces.*1 = [new_uuid 2; new_uuid 3; new_uuid 4]
  ∧ Forall (λ uo, is_place "type" (Weaviate.object_properties uo.2) = true) wplaces
  ∧ (λ uo, bool_decide (is_Some (Weaviate.object_properties uo.2 !! "elevation")))
      <$> wplaces = [false; true; false].
Proof.
  cbn zeta. split_and!; [by_eval | by_decide | by_eval | by_eval | by_decide | by_eval].
Qed.

(** C7, as stated, fails on the Weaviate script: its first call creates a
    class of the schema, which is neither an insert nor a reference
    addition. *)
Lemma call_shapes_counterexample :
  weaviate_trace pretty !! 0 = Some (Weaviate.SchemaCreateClass Weaviate.person_class)
  ∧ has_stated_shape (Weaviate.SchemaCreateClass Weaviate.person_class) = false.
Proof. split; by_eval. Qed.

(** C7, amended.  The calls of the Qdrant script are two upserts into the
    collection ["entities"], each taking a list of points; a point is an
    identifier and a payload, with a vector in the first call and without one
    in the second.  The calls of the Weaviate script have three shapes: six
    class creations taking a class definition, ten inserts taking a payload
    and a class name and returning the identifier, and ten reference additions
    taking a source identifier, a relation name and a target identifier. *)
Theorem call_shapes (new_uuid : nat → Weaviate.uuid) :
  Qdrant.collection_of <$> qdrant_trace = ["entities"; "entities"]
  ∧ (λ c, (λ p, bool_decide (is_Some (Qdrant.vector p))) <$> Qdrant.points_of c)
      <$> qdrant_trace = [replicate 10 true; [false]]
  ∧ Weaviate.kind_of <$> weaviate_trace new_uuid
    = replicate 6 Weaviate.Schema ++ replicate 10 Weaviate.Insert
      ++ replicate 10 Weaviate.Reference
  ∧ (Weaviate.created_with_ids (weaviate_log new_uuid)).*1 = new_uuid <$> seq 0 10.
Proof. split_and!; by_eval. Qed.

(** One call of a run against an arbitrary client: either it raises and the
    run stops, or the run goes on. *)
Ltac run_call h :=
  rewrite (exec_issue h);
  match goal with
  | |- context [h ?c ?w] => destruct (h c w) as [[? ?] |]
  end;
  cbn [fst snd fmap list_fmap call_of];
  [| split; [apply prefix_by_take; by_eval | by_eval]].

(** Whatever the client returns, and wherever it raises, the calls the
    Weaviate script issues are an initial part of the calls its text lists,
    with the uuids that the creates of this very run returned passed on as
    they are. *)
Lemma weaviate_calls_fixed {world} (h : client Weaviate.reply world) (w : world) :
  call_of <$> (exec h Weaviate.main w).1
  `prefix_of` script_calls (returned_ids (exec h Weaviate.main w).1)
  ∧ completes (exec h Weaviate.main w).2 = went_through 26 (exec h Weaviate.main w).1.
Proof.
  cbv [Weaviate.main mbind script_mbind script_bind Weaviate.create_class
       Weaviate.create Weaviate.reference_add issue mret script_ret].
  do 26 run_call h.
  split; [apply prefix_by_take; by_eval | by_eval].
Qed.

(** The same for the Qdrant script, call by call. *)
Lemma qdrant_calls_fixed {world} (h : client Qdrant.reply world) (w : world) :
  call_of <$> (exec h Qdrant.main w).1
  `prefix_of` [Qdrant.store_entities; Qdrant.add_relationships]
  ∧ completes (exec h Qdrant.main w).2 = went_through 2 (exec h Qdrant.main w).1.
Proof.
  cbv [Qdrant.main mbind script_mbind script_bind issue mret script_ret].
  do 2 run_call h.
  split; [apply prefix_by_take; by_eval | by_eval].
Qed.

(** C8.  Neither script handles a failure.  If the call number [n] raises,
    the run issues the calls up to that one and stops there: the call is not
    issued again and no later call is issued.  The run completes exactly when
    no call raises, and then it has issued every call of the script: two for
    Qdrant, twenty-six for Weaviate.  No result is inspected: against any
    client at all, whatever it returns and wherever it raises, the calls
    issued are an initial part of the calls the text of the script lists, every
    uuid that a create returned being passed to the [reference_add] calls as
    it is; and the run completes exactly when all the calls were issued and
    each returned. *)
Theorem no_error_handling (new_uuid : nat → Weaviate.uuid) (n : nat) :
  trace (failing_at n Qdrant.client) Qdrant.main (0, ∅) = take (S n) qdrant_trace
  ∧ completes (exec (failing_at n Qdrant.client) Qdrant.main (0, ∅)).2
    = bool_decide (2 ≤ n)
  ∧ trace (failing_at n (Weaviate.client new_uuid)) Weaviate.main (0, Weaviate.empty)
    = take (S n) (weaviate_trace new_uuid)
  ∧ completes (exec (failing_at n (Weaviate.client new_uuid)) Weaviate.main
                 (0, Weaviate.empty)).2
    = bool_decide (26 ≤ n)
  ∧ weaviate_trace new_uuid = script_calls new_uuid
  ∧ (∀ (world : Type) (h : client Qdrant.reply world) (w : world),
       call_of <$> (exec h Qdrant.main w).1
       `prefix_of` [Qdrant.store_entities; Qdrant.add_relationships]
       ∧ completes (exec h Qdrant.main w).2
         = went_through 2 (exec h Qdrant.main w).1)
  ∧ (∀ (world : Type) (h : client Weaviate.reply world) (w : world),
       call_of <$> (exec h Weaviate.main w).1
       `prefix_of` script_calls (returned_ids (exec h Weaviate.main w).1)
       ∧ completes (exec h Weaviate.main w).2
         = went_through 26 (exec h Weaviate.main w).1).
Proof.
  pose proof (trace_failing_at Qdrant.client Qdrant.main ∅ 0 n (Nat.le_0_l n)) as Hq.
  pose proof (completes_failing_at Qdrant.client Qdrant.main ∅ 0 n (Nat.le_0_l n)) as Hqc.
  pose proof (trace_failing_at (Weaviate.client new_uuid) Weaviate.main Weaviate.empty
                0 n (Nat.le_0_l n)) as Hw.
  pose proof (completes_failing_at (Weaviate.client new_uuid) Weaviate.main
                Weaviate.empty 0 n (Nat.le_0_l n)) as Hwc.
  rewrite Nat.sub_0_r in Hq, Hqc, Hw, Hwc.
  assert (completes (exec Qdrant.client Qdrant.main ∅).2 = true) as Eqc by by_eval.
  assert (length (trace Qdrant.client Qdrant.main ∅) = 2) as Eql by by_eval.
  assert (completes (exec (Weaviate.client new_uuid) Weaviate.main Weaviate.empty).2
          = true) as Ewc by by_eval.
  assert (length (trace (Weaviate.client new_uuid) Weaviate.main Weaviate.empty) = 26)
    as Ewl by by_eval.
  assert (weaviate_trace new_uuid = script_calls new_uuid) as Ecalls by by_eval.
  rewrite Eqc, Eql in Hqc. rewrite Ewc, Ewl in Hwc.
  exact (conj Hq (conj Hqc (conj Hw (conj Hwc (conj Ecalls
           (conj (@qdrant_calls_fixed) (@weaviate_calls_fixed))))))).
Qed.

(** A cross-reference of a log runs between uuids that were known before the
    log or that earlier create calls of the log returned. *)
Lemma referential_lookup (known : list Weaviate.uuid)
    (log : list (event Weaviate.reply)) (j : nat) (f r t : string) :
  Weaviate.referential known log →
  call_of <$> log !! j = Some (Weaviate.DataObjectReferenceAdd f r t) →
  (f ∈ known ∨ ∃ i, i < j ∧ Weaviate.returned <$> log !! i = Some (Some f))
  ∧ (t ∈ known ∨ ∃ i, i < j ∧ Weaviate.returned <$> log !! i = Some (Some t)).
Proof.
  revert known j. induction log as [| e log IH]; intros known j Href Hj; [done |].
  destruct Href as [He Href]. destruct j as [| j].
  - cbn in Hj. simplify_eq. rewrite Hj in He. destruct He. by split; left.
  - cbn in Hj. destruct (IH _ _ Href Hj) as [Hf Ht].
    assert (∀ u, u ∈ from_option (λ v, v :: known) known (Weaviate.returned e) →
                 u ∈ known ∨ Weaviate.returned e = Some u) as Hknown.
    { intros u. destruct (Weaviate.returned e) as [v |]; cbn; [| by left].
      intros [-> | ?]%elem_of_cons; [by right | by left]. }
    split.
    + destruct Hf as [[? | He0]%Hknown | (i & ? & ?)]; [by left | |].
      * right. exists 0. split; [lia |]. cbn. by rewrite He0.
      * right. exists (S i). split; [lia | done].
    + destruct Ht as [[? | He0]%Hknown | (i & ? & ?)]; [by left | |].
      * right. exists 0. split; [lia |]. cbn. by rewrite He0.
      * right. exists (S i). split; [lia | done].
Qed.

(** The log of the Weaviate script is referential, whatever uuids the store
    returns. *)
Lemma weaviate_referential (new_uuid : nat → Weaviate.uuid) :
  Weaviate.referential [] (weaviate_log new_uuid).
Proof.
  vm_compute. repeat split; set_solver.
Qed.

(** Both uuids of a [reference_add] of the Weaviate script were returned by
    earlier create calls. *)
Lemma weaviate_references_created (new_uuid : nat → Weaviate.uuid) j f r t :
  call_of <$> weaviate_log new_uuid !! j = Some (Weaviate.DataObjectReferenceAdd f r t) →
  ∃ i1 i2,
    i1 < j ∧ i2 < j
    ∧ Weaviate.returned <$> weaviate_log new_uuid !! i1 = Some (Some f)
    ∧ Weaviate.returned <$> weaviate_log new_uuid !! i2 = Some (Some t).
Proof.
  generalize (weaviate_referential new_uuid).
  generalize (weaviate_log new_uuid).
  intros log Href Hj.
  destruct (referential_lookup [] log j f r t Href Hj)
      as [[Hf | (i1 & Hi1 & Hr1)] [Ht | (i2 & Hi2 & Hr2)]].
  1, 2: exfalso; exact (proj1 (elem_of_nil _) Hf).
  1: exfalso; exact (proj1 (elem_of_nil _) Ht).
  exact (ex_intro _ i1 (ex_intro _ i2 (conj Hi1 (conj Hi2 (conj Hr1 Hr2))))).
Qed.

(** Every edge a Qdrant call of the script records runs between ids that
    the calls before it inserted. *)
Lemma qdrant_references_inserted (j : nat) (c : Qdrant.call) (e : Qdrant.reference) :
  qdrant_trace !! j = Some c →
  e ∈ Qdrant.recorded_edges [c] →
  e.1.1 ∈ Qdrant.inserted_ids (take j qdrant_trace)
  ∧ e.2 ∈ Qdrant.inserted_ids (take j qdrant_trace).
Proof.
  rewrite qdrant_trace_eq. intros Hj.
  destruct j as [| [| j]]; cbn [lookup list_lookup] in Hj;
    [injection Hj as <- | injection Hj as <- | discriminate Hj].
  - intros He. exfalso. revert He. by_decide.
  - revert e. apply Forall_forall. by_decide.
Qed.

(** C9.  In the Weaviate script both uuids of every [reference_add] were
    returned by [data_object.create] calls issued before it.  In the Qdrant
    script the ten entity names are the ids the entity upsert inserts, and
    every edge a call records runs between ids that earlier calls
    inserted. *)
Theorem referential_integrity (new_uuid : nat → Weaviate.uuid) :
  (∀ j f r t,
     call_of <$> weaviate_log new_uuid !! j
     = Some (Weaviate.DataObjectReferenceAdd f r t) →
     ∃ i1 i2,
       i1 < j ∧ i2 < j
       ∧ Weaviate.returned <$> weaviate_log new_uuid !! i1 = Some (Some f)
       ∧ Weaviate.returned <$> weaviate_log new_uuid !! i2 = Some (Some t))
  ∧ Qdrant.inserted_ids qdrant_trace = entity_names
  ∧ (∀ j c e,
       qdrant_trace !! j = Some c →
       e ∈ Qdrant.recorded_edges [c] →
       e.1.1 ∈ Qdrant.inserted_ids (take j qdrant_trace)
       ∧ e.2 ∈ Qdrant.inserted_ids (take j qdrant_trace)).
Proof.
  split; [exact (weaviate_references_created new_uuid) |].
  split; [by_eval | exact qdrant_references_inserted].
Qed.

Lemma referential_integrity_witness :
  call_of <$> weaviate_log pretty !! 18
  = Some (Weaviate.DataObjectReferenceAdd (pretty 7) "tookPlaceAt" (pretty 2))
  ∧ ∃ i1 i2,
      i1 < 18 ∧ i2 < 18
      ∧ Weaviate.returned <$> weaviate_log pretty !! i1 = Some (Some (pretty 7))
      ∧ Weaviate.returned <$> weaviate_log pretty !! i2 = Some (Some (pretty 2)).
Proof.
  assert (call_of <$> weaviate_log pretty !! 18
          = Some (Weaviate.DataObjectReferenceAdd (pretty 7) "tookPlaceAt" (pretty 2)))
    as H by by_eval.
  split; [exact H |].
  exact (proj1 (referential_integrity pretty) 18 _ _ _ H).
Defined.

(** C10.  The relationship upsert names the collection ["entities"] and the
    single point ["kaiser"].  Whatever the store holds, the call leaves every
    other point of that collection, and every point of any other collection,
    as it was.  In the run, each of the nine other entities is stored by the
    entity upsert as the script wrote it, and is still stored so at the end;
    the store has the one collection. *)
Theorem relationship_upsert_frame :
  Qdrant.collection_of Qdrant.add_relationships = "entities"
  ∧ Qdrant.id <$> Qdrant.points_of Qdrant.add_relationships = ["kaiser"]
  ∧ (∀ (st : gmap string (gmap string Qdrant.point)) (name i : string),
       name ≠ "entities" ∨ i ≠ "kaiser" →
       Qdrant.stored (Qdrant.upsert Qdrant.add_relationships st) name i
       = Qdrant.stored st name i)
  ∧ Forall (λ p, Qdrant.id p = "kaiser"
                 ∨ (Qdrant.stored (Qdrant.upsert Qdrant.store_entities ∅) "entities"
                      (Qdrant.id p) = Some p
                    ∧ Qdrant.stored qdrant_store "entities" (Qdrant.id p) = Some p))
      Qdrant.entity_points
  ∧ dom qdrant_store = {["entities"]}.
Proof.
  split_and!; [reflexivity | reflexivity | | | by_decide].
  - intros st name i Hne. apply upsert_frame.
    destruct Hne as [Hname | Hi]; [left; exact Hname | right].
    intros [-> | []%elem_of_nil]%elem_of_cons. by apply Hi.
  - repeat (apply Forall_cons; split;
              [first [left; reflexivity | right; split; by_eval] |]).
    constructor.
Qed.

Lemma relationship_upsert_frame_witness :
  ("entities" ≠ "entities" ∨ "nancy" ≠ "kaiser")
  ∧ Qdrant.stored (Qdrant.upsert Qdrant.add_relationships
                     (Qdrant.upsert Qdrant.store_entities ∅)) "entities" "nancy"
    = Qdrant.stored (Qdrant.upsert Qdrant.store_entities ∅) "entities" "nancy".
Proof.
  assert ("entities" ≠ "entities" ∨ "nancy" ≠ "kaiser") as H by (right; discriminate).
  split; [exact H |].
  exact (proj1 (proj2 (proj2 relationship_upsert_frame)) _ _ _ H).
Defined.

(** * Further properties of the two scripts *)

(** What [fits] says, property by property. *)
Lemma fits_spec (cd : Weaviate.class_def) (o : Weaviate.object) :
  fits cd o = true ↔
  Weaviate.class cd = Weaviate.object_class o
  ∧ ∀ k v, Weaviate.object_properties o !! k = Some v →
           Weaviate.Property k [data_type_of v] ∈ Weaviate.properties cd.
Proof.
  unfold fits. rewrite andb_true_iff, bool_decide_eq_true, forallb_forall.
  apply and_iff_compat_l. split.
  - intros H k v Hkv. apply elem_of_map_to_list, list_elem_of_In, H in Hkv.
    by apply bool_decide_eq_true in Hkv.
  - intros H [k v] Hkv%list_elem_of_In%elem_of_map_to_list.
    apply bool_decide_eq_true. by apply H.
Qed.

(** What [schema_respected] says, call by call. *)
Lemma schema_respected_lookup (schema : list Weaviate.class_def)
    (tr : list Weaviate.call) (j : nat) (d : dict) (cn : string) :
  schema_respected schema tr = true →
  tr !! j = Some (Weaviate.DataObjectCreate d cn) →
  ∃ cd, fits cd (Weaviate.Object cn d) = true
        ∧ (cd ∈ schema
           ∨ ∃ i, i < j ∧ tr !! i = Some (Weaviate.SchemaCreateClass cd)).
Proof.
  revert schema j. induction tr as [| c tr IH]; intros schema j Hok Hj; [done |].
  destruct j as [| j]; cbn in Hj.
  - injection Hj as ->. cbn in Hok. apply andb_true_iff in Hok as [Hex _].
    apply existsb_exists in Hex as (cd & Hin%list_elem_of_In & Hfit).
    exists cd. split; [done | by left].
  - assert (∃ schema', schema_respected schema' tr = true
                       ∧ ∀ cd, cd ∈ schema' →
                               cd ∈ schema ∨ c = Weaviate.SchemaCreateClass cd)
      as (schema' & Hok' & Hsub).
    { destruct c as [cd0 | d0 cn0 | f r t]; cbn in Hok.
      - exists (schema ++ [cd0]). split; [done |].
        intros cd [? | ->%list_elem_of_singleton]%elem_of_app; [by left | by right].
      - apply andb_true_iff in Hok as [_ Hok]. exists schema. split; [done |].
        by left.
      - exists schema. split; [done |]. by left. }
    destruct (IH _ _ Hok' Hj) as (cd & Hfit & [Hin | (i & Hi & Hci)]).
    + exists cd. split; [done |].
      destruct (Hsub _ Hin) as [? | ->]; [by left |].
      right. exists 0. split; [lia | done].
    + exists cd. split; [done |]. right. exists (S i). split; [lia | done].
Qed.

Lemma weaviate_schema_respected (new_uuid : nat → Weaviate.uuid) :
  schema_respected [] (weaviate_trace new_uuid) = true.
Proof. by_eval. Qed.

(** X1.  Every object the Weaviate script creates names a class that an
    earlier [schema.create_class] call of the script created, and that class
    declares each property of the object with the data type of its value. *)
Theorem objects_fit_schema (new_uuid : nat → Weaviate.uuid) (j : nat) (d : dict)
    (cn : string) :
  weaviate_trace new_uuid !! j = Some (Weaviate.DataObjectCreate d cn) →
  ∃ i cd,
    i < j
    ∧ weaviate_trace new_uuid !! i = Some (Weaviate.SchemaCreateClass cd)
    ∧ Weaviate.class cd = cn
    ∧ ∀ k v, d !! k = Some v →
             Weaviate.Property k [data_type_of v] ∈ Weaviate.properties cd.
Proof.
  generalize (weaviate_schema_respected new_uuid).
  generalize (weaviate_trace new_uuid). intros tr Hok Hj.
  destruct (schema_respected_lookup [] tr j d cn Hok Hj)
    as (cd & Hfit & [Hin | (i & Hi & Hci)]).
  { exfalso. exact (proj1 (elem_of_nil _) Hin). }
  apply fits_spec in Hfit as [Hclass Hprops].
  exact (ex_intro _ i (ex_intro _ cd (conj Hi (conj Hci (conj Hclass Hprops))))).
Qed.

Lemma objects_fit_schema_witness :
  weaviate_trace pretty !! 9 = Some (Weaviate.DataObjectCreate Weaviate.princeton "Place")
  ∧ ∃ i cd,
      i < 9
      ∧ weaviate_trace pretty !! i = Some (Weaviate.SchemaCreateClass cd)
      ∧ Weaviate.class cd = "Place"
      ∧ ∀ k v, Weaviate.princeton !! k = Some v →
               Weaviate.Property k [data_type_of v] ∈ Weaviate.properties cd.
Proof.
  assert (weaviate_trace pretty !! 9
          = Some (Weaviate.DataObjectCreate Weaviate.princeton "Place")) as H by by_eval.
  split; [exact H |]. exact (objects_fit_schema pretty 9 _ _ H).
Defined.

(** X2.  The schema step is well formed and tight: the six classes have
    distinct names, the six core types; within a class the property names are
    distinct; every property is declared with one of the data types [text],
    [number], [text[]]; and every declared property is carried by at least
    one object the script creates in that class. *)
Theorem schema_is_tight (new_uuid : nat → Weaviate.uuid) :
  let classes := created_classes (weaviate_trace new_uuid) in
  let objects := Weaviate.created_objects (weaviate_trace new_uuid) in
  NoDup (Weaviate.class <$> classes)
  ∧ Weaviate.class <$> classes ≡ₚ core_types
  ∧ Forall (λ cd, NoDup (Weaviate.name <$> Weaviate.properties cd)) classes
  ∧ Forall (λ cd, Forall (λ p, Weaviate.dataType p
                               ∈ [["text"]; ["number"]; ["text[]"]])
                    (Weaviate.properties cd)) classes
  ∧ Forall (λ cd,
              Forall (λ p,
                        Exists (λ o, Weaviate.object_class o = Weaviate.class cd
                                     ∧ is_Some (Weaviate.object_properties o
                                                !! Weaviate.name p))
                          objects)
                (Weaviate.properties cd)) classes.
Proof. cbn zeta. split_and!; by_decide. Qed.

(** X3.  Every entity point of the Qdrant script, read as an object (the
    type tag as the class, the place category under ["type"]), fits one of
    the classes the Weaviate script declares: the two scripts agree on the
    attribute names and their data types. *)
Theorem qdrant_payloads_fit_schema (new_uuid : nat → Weaviate.uuid) :
  Forall (λ p, from_option
                 (λ o, existsb (λ cd, fits cd o)
                         (created_classes (weaviate_trace new_uuid)))
                 false (as_object p) = true)
    (filter Qdrant.is_entity_point (qdrant_trace ≫= Qdrant.points_of)).
Proof. by_decide. Qed.

(** X4.  The schema step declares no cross-reference: no class the Weaviate
    script creates declares a property under a name that one of its
    [reference_add] calls uses, nor under any relation name of the data
    model. *)
Theorem references_are_undeclared (new_uuid : nat → Weaviate.uuid) :
  let declared :=
    created_classes (weaviate_trace new_uuid)
    ≫= (λ cd, Weaviate.name <$> Weaviate.properties cd) in
  Forall (λ e : Weaviate.reference, e.1.2 ∉ declared)
    (Weaviate.added_references (weaviate_trace new_uuid))
  ∧ Forall (λ r, r ∉ declared) relation_names.
Proof. cbn zeta. split; by_decide. Qed.

(** X7.  Both scripts use exactly the six core types of their header: they
    are the type tags of the Qdrant payloads and the classes of the objects
    the Weaviate script creates. *)
Theorem core_types_are_used (new_uuid : nat → Weaviate.uuid) :
  list_to_set (Weaviate.object_class
                 <$> omap as_object
                       (filter Qdrant.is_entity_point
                          (qdrant_trace ≫= Qdrant.points_of)))
  =@{gset string} list_to_set core_types
  ∧ Forall (λ p, is_Some (as_object p))
      (filter Qdrant.is_entity_point (qdrant_trace ≫= Qdrant.points_of))
  ∧ list_to_set (Weaviate.object_class
                   <$> Weaviate.created_objects (weaviate_trace new_uuid))
    =@{gset string} list_to_set core_types.
Proof. split_and!; by_decide. Qed.

(** The [reference_add] calls of the Weaviate script pass the listed edges
    between the uuids returned for the entities at their positions. *)
Lemma weaviate_added_index (new_uuid : nat → Weaviate.uuid) :
  Weaviate.added_references (weaviate_trace new_uuid)
  = (λ e : nat * string * nat, (new_uuid e.1.1, e.1.2, new_uuid e.2)) <$> index_edges.
Proof. by_eval. Qed.

Lemma weaviate_references_index (new_uuid : nat → Weaviate.uuid)
    `{!Inj (=) (=) new_uuid} :
  Weaviate.references (weaviate_store new_uuid)
  = (λ e : nat * string * nat, (new_uuid e.1.1, e.1.2, new_uuid e.2)) <$> index_edges.
Proof.
  rewrite <- weaviate_added_index.
  unfold weaviate_store, weaviate_run, weaviate_trace.
  exact (proj2 (exec_from_empty new_uuid Weaviate.main)).
Qed.

Lemma index_targets :
  Forall (λ e : nat * string * nat,
            Weaviate.object_class <$> example_entities.*2 !! e.2
            = relation_targets !! e.1.2
            ∧ is_Some (relation_targets !! e.1.2))
    index_edges.
Proof. by_decide. Qed.

(** X5.  Each relation points to objects of one class: in the store the
    Weaviate script leaves, the target of every reference is an object of the
    class [relation_targets] gives for the relation name; and each edge the
    Qdrant script records is under a relation name that [relation_targets]
    knows, and points to a point that the entity upsert stored with the
    class of that relation as its type tag. *)
Theorem relations_have_one_target_class (new_uuid : nat → Weaviate.uuid)
    `{!Inj (=) (=) new_uuid} :
  Forall (λ e : Weaviate.reference,
            Weaviate.object_class
              <$> Weaviate.objects (weaviate_store new_uuid) !! e.2
            = relation_targets !! e.1.2
            ∧ is_Some (relation_targets !! e.1.2))
    (Weaviate.references (weaviate_store new_uuid))
  ∧ Forall (λ e : Qdrant.reference,
              Weaviate.object_class
                <$> (Qdrant.stored (Qdrant.upsert Qdrant.store_entities ∅)
                       "entities" e.2 ≫= as_object)
              = relation_targets !! e.1.2
              ∧ is_Some (relation_targets !! e.1.2))
      (Qdrant.recorded_edges qdrant_trace).
Proof.
  split; [| by_decide].
  rewrite (weaviate_references_index new_uuid). apply Forall_fmap.
  destruct (weaviate_holds new_uuid) as [(_ & Hl & _) _].
  eapply Forall_impl; [exact index_targets |].
  intros e He. unfold compose. cbn [fst snd]. rewrite Hl. exact He.
Qed.

Lemma relations_have_one_target_class_witness :
  Inj (=) (=) (pretty : nat → string)
  ∧ Forall (λ e : Weaviate.reference,
              Weaviate.object_class
                <$> Weaviate.objects (weaviate_store pretty) !! e.2
              = relation_targets !! e.1.2
              ∧ is_Some (relation_targets !! e.1.2))
      (Weaviate.references (weaviate_store pretty)).
Proof.
  split; [apply _ |]. exact (proj1 (relations_have_one_target_class pretty)).
Defined.

Lemma index_no_self : Forall (λ e : nat * string * nat, e.1.1 ≠ e.2) index_edges.
Proof. by_decide. Qed.

Lemma index_no_chain :
  Forall (λ e1 : nat * string * nat,
            Forall (λ e2 : nat * string * nat,
                      Forall (λ e3 : nat * string * nat,
                                Forall (λ e4 : nat * string * nat,
                                          ¬ (e1.2 = e2.1.1 ∧ e2.2 = e3.1.1
                                             ∧ e3.2 = e4.1.1))
                                  index_edges)
                        index_edges)
              index_edges)
    index_edges.
Proof. by_decide. Qed.

Lemma index_reachable :
  Forall (λ i,
            i = 0
            ∨ Exists (λ e : nat * string * nat, e.1.1 = 0 ∧ e.2 = i) index_edges
            ∨ Exists (λ e1 : nat * string * nat,
                        e1.1.1 = 0
                        ∧ Exists (λ e2 : nat * string * nat,
                                    e2.1.1 = e1.2 ∧ e2.2 = i) index_edges)
                index_edges)
    (seq 0 10).
Proof. by_decide. Qed.

(** X6.  The references of the Weaviate script form a shallow graph without
    cycles, rooted at Kaiser: no reference runs from an object to itself, no
    four references follow one another, and every entity is Kaiser or is
    reached from Kaiser by one reference or by two. *)
Theorem references_form_a_shallow_graph (new_uuid : nat → Weaviate.uuid)
    `{!Inj (=) (=) new_uuid} :
  let refs := Weaviate.added_references (weaviate_trace new_uuid) in
  Forall (λ e : Weaviate.reference, e.1.1 ≠ e.2) refs
  ∧ (∀ a b c d e r1 r2 r3 r4,
       (a, r1, b) ∈ refs → (b, r2, c) ∈ refs → (c, r3, d) ∈ refs →
       (d, r4, e) ∈ refs → False)
  ∧ Forall (λ u,
              u = new_uuid 0
              ∨ Exists (λ e : Weaviate.reference, e.1.1 = new_uuid 0 ∧ e.2 = u) refs
              ∨ Exists (λ e1 : Weaviate.reference,
                          e1.1.1 = new_uuid 0
                          ∧ Exists (λ e2 : Weaviate.reference,
                                      e2.1.1 = e1.2 ∧ e2.2 = u) refs)
                  refs)
      (Weaviate.created_with_ids (weaviate_log new_uuid)).*1.
Proof.
  cbn zeta. rewrite (weaviate_added_index new_uuid).
  assert ((Weaviate.created_with_ids (weaviate_log new_uuid)).*1
          = new_uuid <$> seq 0 10) as -> by by_eval.
  generalize index_no_self index_no_chain index_reachable.
  generalize index_edges. intros es Hself Hchain Hreach. split_and!.
  - apply Forall_fmap. eapply Forall_impl; [exact Hself |].
    intros e He Heq. unfold compose in Heq. cbn [fst snd] in Heq.
    by apply (inj new_uuid) in Heq.
  - intros a b c d e r1 r2 r3 r4.
    intros (e1 & [= -> -> ->] & H1)%list_elem_of_fmap.
    intros (e2 & [= Hb -> ->] & H2)%list_elem_of_fmap.
    intros (e3 & [= Hc -> ->] & H3)%list_elem_of_fmap.
    intros (e4 & [= Hd -> ->] & H4)%list_elem_of_fmap.
    apply (inj new_uuid) in Hb, Hc, Hd.
    rewrite Forall_forall in Hchain. specialize (Hchain _ H1).
    rewrite Forall_forall in Hchain. specialize (Hchain _ H2).
    rewrite Forall_forall in Hchain. specialize (Hchain _ H3).
    rewrite Forall_forall in Hchain.
    exact (Hchain _ H4 (conj Hb (conj Hc Hd))).
  - apply Forall_fmap. eapply Forall_impl; [exact Hreach |].
    intros i [-> | [H1 | H2]]; unfold compose; [by left | right; left | right; right].
    + apply Exists_fmap. eapply Exists_impl; [exact H1 |].
      intros e [Hs Ht]. unfold compose. cbn [fst snd]. by rewrite Hs, Ht.
    + apply Exists_fmap. eapply Exists_impl; [exact H2 |].
      intros e1 [Hs H]. unfold compose. cbn [fst snd]. rewrite Hs. split; [done |].
      apply Exists_fmap. eapply Exists_impl; [exact H |].
      intros e2 [Hs' Ht]. unfold compose. cbn [fst snd]. by rewrite Hs', Ht.
Qed.

Lemma references_form_a_shallow_graph_witness :
  Inj (=) (=) (pretty : nat → string)
  ∧ Forall (λ e : Weaviate.reference, e.1.1 ≠ e.2)
      (Weaviate.added_references (weaviate_trace pretty)).
Proof.
  split; [apply _ |]. exact (proj1 (references_form_a_shallow_graph pretty)).
Defined.
